(** * Anchor generation of pytorch_retinanet, embedded and verified

    A shallow embedding of [pytorch_retinanet/anchors.py]: the parameter
    broadcaster [_broadcast_params] and the class [AnchorGenerator]
    (construction, cell-anchor synthesis, grid offsets, tiling, [forward]
    and the read-only accessors).

    Python exceptions are values of [exn]; a call that may raise returns a
    [result].  The program's floating-point arithmetic is an interface
    ([Arith]) that the definitions are written against once.  It has two
    instances: IEEE binary64 ([float]), on which the definitions run, and
    the real numbers ([R]), the usual idealisation of floating point, on
    which the numeric properties are proved.  Rounding (binary64 in
    [math.sqrt], float32 inside the tensors) and overflow are outside the
    real-number instance. *)

From Stdlib Require Import Floats Ascii String DecimalString DecimalNat.
From Stdlib Require Import List ZArith Bool Lia Reals Lra.
Import ListNotations.

Set Implicit Arguments.
Set Warnings "-inexact-float".

(** ** Exceptions and results *)

(** The exceptions the program can raise.  [AssertionError] carries the
    message of the failed [assert]; it is what the specification calls
    InvalidConfiguration.  The others come from the arithmetic
    ([ZeroDivisionError], [ValueError] of [math.sqrt]), from unpacking
    ([ValueError]) and from torch ([RuntimeError]). *)
Inductive exn : Type :=
| AssertionError (msg : string)
| ZeroDivisionError
| ValueError
| RuntimeError.

Inductive result (A : Type) : Type :=
| Ok (a : A)
| Raise (e : exn).

Arguments Ok {A} a.
Arguments Raise {A} e.

Definition bind {A B : Type} (c : result A) (k : A -> result B) : result B :=
  match c with
  | Ok a => k a
  | Raise e => Raise e
  end.

Notation "x <- c ;; k" := (bind c (fun x => k))
  (at level 61, c at next level, right associativity).
Notation "' p <- c ;; k" := (bind c (fun x => match x with p => k end))
  (at level 61, p pattern, c at next level, right associativity).

(** A Python [for] loop, or list comprehension, whose body may raise: the
    bodies run left to right and the first exception ends the loop. *)
Fixpoint mapM {A B : Type} (f : A -> result B) (l : list A) : result (list B) :=
  match l with
  | [] => Ok []
  | a :: l' => b <- f a ;; bs <- mapM f l' ;; Ok (b :: bs)
  end.

Definition raises {A : Type} (r : result A) : Prop := exists e, r = Raise e.

(** [str(n)] of a non-negative Python int. *)
Definition str_of_nat (n : nat) : string := NilZero.string_of_uint (Nat.to_uint n).

(** ** Arithmetic *)

(** The float operations the program uses.  [of_int] is the conversion of a
    Python int; [fisfinite] and [fceil] ([ceil] to an integer) are what
    [torch.arange] applies to its bounds and to its size. *)
Class Arith (F : Type) : Type := {
  of_int : Z -> F;
  fadd : F -> F -> F;
  fsub : F -> F -> F;
  fmul : F -> F -> F;
  fdiv : F -> F -> F;
  fneg : F -> F;
  fsqrt : F -> F;
  feqb : F -> F -> bool;
  fltb : F -> F -> bool;
  fleb : F -> F -> bool;
  fisfinite : F -> bool;
  fceil : F -> Z
}.

(** The reals. *)
Definition Rceil (x : R) : Z := (1 - up (- x))%Z.

#[export] Instance R_Arith : Arith R := {|
  of_int := IZR;
  fadd := Rplus;
  fsub := Rminus;
  fmul := Rmult;
  fdiv := Rdiv;
  fneg := Ropp;
  fsqrt := R_sqrt.sqrt;
  feqb := fun x y => if Req_dec_T x y then true else false;
  fltb := fun x y => if Rlt_dec x y then true else false;
  fleb := fun x y => if Rle_dec x y then true else false;
  fisfinite := fun _ => true;
  fceil := Rceil
|}.

(** IEEE binary64, as Python's [float]. *)
Definition float_of_Z (z : Z) : float :=
  match z with
  | Z0 => PrimFloat.zero
  | Zpos p => PrimFloat.of_uint63 (Uint63.of_Z (Zpos p))
  | Zneg p => PrimFloat.opp (PrimFloat.of_uint63 (Uint63.of_Z (Zpos p)))
  end.

Definition float_ceil (x : float) : Z :=
  match Prim2SF x with
  | SpecFloat.S754_finite s m e =>
      let n := if s then Zneg m else Zpos m in
      if (0 <=? e)%Z then (n * 2 ^ e)%Z else (- ((- n) / 2 ^ (- e)))%Z
  | _ => 0%Z
  end.

#[export] Instance float_Arith : Arith float := {|
  of_int := float_of_Z;
  fadd := PrimFloat.add;
  fsub := PrimFloat.sub;
  fmul := PrimFloat.mul;
  fdiv := PrimFloat.div;
  fneg := PrimFloat.opp;
  fsqrt := PrimFloat.sqrt;
  feqb := PrimFloat.eqb;
  fltb := PrimFloat.ltb;
  fleb := PrimFloat.leb;
  fisfinite := PrimFloat.is_finite;
  fceil := float_ceil
|}.

(** ** The program *)

(** A box [(x0, y0, x1, y1)]: one row of an [N x 4] tensor. *)
Record box (F : Type) : Type := mkBox { x0 : F; y0 : F; x1 : F; y1 : F }.

Arguments mkBox {F} x0 y0 x1 y1.
Arguments x0 {F} b.
Arguments y0 {F} b.
Arguments x1 {F} b.
Arguments y1 {F} b.

(** What a caller passes as [sizes] or [aspect_ratios]: a [list[float]], a
    [list[list[float]]] (the two shapes the docstring of [_broadcast_params]
    names; a tuple is read as a list), or any other object, given by its
    [str()].  [Flat []] and [Nested []] both stand for the empty list. *)
Inductive params (F : Type) : Type :=
| Flat (xs : list F)
| Nested (xss : list (list F))
| NotSeq (shown : string).

Arguments Flat {F} xs.
Arguments Nested {F} xss.
Arguments NotSeq {F} shown.

Section Anchors.

Context {F : Type} `{Arith F}.

(** [isinstance(params, (list, tuple))] *)
Definition is_list_or_tuple (p : params F) : bool :=
  match p with
  | Flat _ | Nested _ => true
  | NotSeq _ => false
  end.

(** [len(params)] of a list or tuple *)
Definition len (p : params F) : nat :=
  match p with
  | Flat xs => length xs
  | Nested xss => length xss
  | NotSeq _ => 0
  end.

(** [f"{params}"] for the object that failed the first assertion *)
Definition shown_params (p : params F) : string :=
  match p with
  | NotSeq s => s
  | _ => EmptyString
  end.

(** [[x] * n] *)
Definition list_repeat {A : Type} (x : A) (n : nat) : list A := repeat x n.

(** [l * n] for a list [l] *)
Definition list_times {A : Type} (l : list A) (n : nat) : list A :=
  concat (repeat l n).

Definition _broadcast_params (p : params F) (num_features : nat) (name : string)
  : result (list (list F)) :=
  if negb (is_list_or_tuple p) then
    Raise (AssertionError
             (name ++ " in anchor generator has to be a list! Got " ++ shown_params p ++ ".")%string)
  else if (len p =? 0)%nat then
    Raise (AssertionError (name ++ " in anchor generator cannot be empty!")%string)
  else
    match p with
    | Flat xs => (* not isinstance(params[0], (list, tuple)) *)
        Ok (list_repeat xs num_features)
    | Nested xss =>
        if (length xss =? 1)%nat then Ok (list_times xss num_features)
        else if negb (length xss =? num_features)%nat then
          Raise (AssertionError
                   ("Got " ++ name ++ " of length " ++ str_of_nat (length xss)
                    ++ " in anchor generator, but the number of input features is "
                    ++ str_of_nat num_features ++ "!")%string)
        else Ok xss
    | NotSeq _ => Ok [] (* not reached: the first assertion has failed *)
    end.

(** [x ** 2.0], the square of [x]. *)
Definition pow2 (x : F) : F := fmul x x.

(** [x / y] on floats: division by zero raises. *)
Definition truediv (x y : F) : result F :=
  if feqb y (of_int 0) then Raise ZeroDivisionError else Ok (fdiv x y).

(** [math.sqrt]: a negative argument raises (math domain error). *)
Definition math_sqrt (x : F) : result F :=
  if fltb x (of_int 0) then Raise ValueError else Ok (fsqrt x).

(** Division by the literal [2.0]. *)
Definition half (x : F) : F := fdiv x (of_int 2).

(** The body of the inner loop of [generate_cell_anchors]. *)
Definition cell_anchor (area aspect_ratio : F) : result (box F) :=
  q <- truediv area aspect_ratio ;;
  w <- math_sqrt q ;;
  let h := fmul aspect_ratio w in
  Ok (mkBox (half (fneg w)) (half (fneg h)) (half w) (half h)).

Definition generate_cell_anchors (sizes aspect_ratios : list F) : result (list (box F)) :=
  rows <- mapM (fun size =>
                  let area := pow2 size in
                  mapM (fun aspect_ratio => cell_anchor area aspect_ratio) aspect_ratios)
               sizes ;;
  Ok (concat rows).

(** [zip] of three lists stops at the shortest. *)
Fixpoint zip3 {A B C : Type} (a : list A) (b : list B) (c : list C) : list (A * B * C) :=
  match a, b, c with
  | x :: a', y :: b', z :: c' => (x, y, z) :: zip3 a' b' c'
  | _, _, _ => []
  end.

(** [torch.tensor(anchors)] and [.float()] keep the boxes as they are, but
    for their rounding to float32; [BufferList] keeps the tensors in order. *)
Definition _calculate_anchors (sizes aspect_ratios : list (list F))
  : result (list (list (box F))) :=
  mapM (fun '(s, a) => generate_cell_anchors s a) (combine sizes aspect_ratios).

(** The state of an [AnchorGenerator] ([device] does not bear on values). *)
Record AnchorGenerator : Type := mkAnchorGenerator {
  strides : list Z;
  num_features : nat;
  sizes : list (list F);
  aspect_ratios : list (list F);
  cell_anchors : list (list (box F));
  offset : F
}.

Definition __init__ (sizes0 aspect_ratios0 : params F) (strides0 : list Z) (offset0 : F)
  : result AnchorGenerator :=
  let n := length strides0 in
  ss <- _broadcast_params sizes0 n "sizes"%string ;;
  ars <- _broadcast_params aspect_ratios0 n "aspect_ratios"%string ;;
  cas <- _calculate_anchors ss ars ;;
  Ok {| strides := strides0; num_features := n; sizes := ss; aspect_ratios := ars;
        cell_anchors := cas; offset := offset0 |}.

Definition num_anchors (self : AnchorGenerator) : list nat :=
  map (fun ca => length ca) (cell_anchors self).

Definition num_cell_anchors (self : AnchorGenerator) : list nat := num_anchors self.

(** [torch.arange(start, end, step)].  The step must be nonzero, the bounds
    finite, and the bounds must agree with the sign of the step (torch
    raises "step must be nonzero", "unsupported range", "upper bound and
    larger bound inconsistent with step sign").  The tensor has
    [ceil((end - start) / step)] entries, entry [i] being [start + step * i]. *)
Definition torch_arange (start end_ step : F) : result (list F) :=
  if feqb step (of_int 0) then Raise RuntimeError
  else if negb (fisfinite start && fisfinite end_) then Raise RuntimeError
  else if (fltb (of_int 0) step && fleb start end_)
          || (fltb step (of_int 0) && fleb end_ start) then
    let size := Z.to_nat (fceil (fdiv (fsub end_ start) step)) in
    Ok (map (fun i => fadd start (fmul step (of_int (Z.of_nat i)))) (seq 0 size))
  else Raise RuntimeError.

(** [torch.meshgrid(a, b)] (indexing "ij"): two [len(a) x len(b)] tensors,
    the first constant along rows, the second along columns. *)
Definition torch_meshgrid (a b : list F) : list (list F) * list (list F) :=
  (map (fun y => map (fun _ => y) b) a, map (fun _ => b) a).

(** [t.reshape(-1)] of a 2-D tensor: its rows, one after the other. *)
Definition reshape_flat (t : list (list F)) : list F := concat t.

(** [H, W = size] *)
Definition unpack2 (size : list Z) : result (Z * Z) :=
  match size with
  | [h; w] => Ok (h, w)
  | _ => Raise ValueError
  end.

Definition _compute_grid_offsets (size : list Z) (stride : Z) (offset0 : F)
  : result (list F * list F) :=
  '(h, w) <- unpack2 size ;;
  shifts_x <- torch_arange (fmul offset0 (of_int stride)) (of_int (w * stride)) (of_int stride) ;;
  shifts_y <- torch_arange (fmul offset0 (of_int stride)) (of_int (h * stride)) (of_int stride) ;;
  let '(shifts_y2, shifts_x2) := torch_meshgrid shifts_y shifts_x in
  Ok (reshape_flat shifts_x2, reshape_flat shifts_y2).

(** [torch.stack((shift_x, shift_y, shift_x, shift_y), dim=1)]: the tensors
    must have one size. *)
Definition torch_stack4 (shift_x shift_y : list F) : result (list (box F)) :=
  if (length shift_x =? length shift_y)%nat then
    Ok (map (fun '(x, y) => mkBox x y x y) (combine shift_x shift_y))
  else Raise RuntimeError.

(** Entry-wise sum of two rows. *)
Definition box_add (s b : box F) : box F :=
  mkBox (fadd (x0 s) (x0 b)) (fadd (y0 s) (y0 b)) (fadd (x1 s) (x1 b)) (fadd (y1 s) (y1 b)).

(** [(shifts.view(-1, 1, 4) + base_anchors.view(1, -1, 4)).reshape(-1, 4)]:
    the broadcast sum has entry [shifts[p] + base_anchors[k]] at [(p, k)]. *)
Definition tile (shifts base_anchors : list (box F)) : list (box F) :=
  concat (map (fun s => map (fun b => box_add s b) base_anchors) shifts).

(** The body of the loop of [grid_anchors]: the anchors of one level. *)
Definition grid_anchors_level (offset0 : F) (size : list Z) (stride : Z)
    (base_anchors : list (box F)) : result (list (box F)) :=
  '(shift_x, shift_y) <- _compute_grid_offsets size stride offset0 ;;
  shifts <- torch_stack4 shift_x shift_y ;;
  Ok (tile shifts base_anchors).

Definition grid_anchors (self : AnchorGenerator) (grid_sizes : list (list Z))
  : result (list (list (box F))) :=
  mapM (fun '(size, stride, base_anchors) =>
          grid_anchors_level (offset self) size stride base_anchors)
       (zip3 grid_sizes (strides self) (cell_anchors self)).

(** [shape[-2:]] *)
Definition last2 (shape : list Z) : list Z := skipn (length shape - 2) shape.

(** [torch.cat(tensors, dim=0)]: an empty list of tensors is refused. *)
Definition torch_cat (tensors : list (list (box F))) : result (list (box F)) :=
  match tensors with
  | [] => Raise RuntimeError
  | _ => Ok (concat tensors)
  end.

(** A feature map is given by its shape. *)
Definition forward (self : AnchorGenerator) (features : list (list Z))
  : result (list (list (box F))) :=
  let grid_sizes := map last2 features in
  anchors_over_all_feature_maps <- grid_anchors self grid_sizes ;;
  anchors <- torch_cat anchors_over_all_feature_maps ;;
  Ok [anchors].

End Anchors.

Arguments AnchorGenerator F : clear implicits.

(** ** The rest of the module: [ifnone], [BufferList], the configuration *)

(** [ifnone(a, b)]: [a] unless it is [None]. *)
Definition ifnone {A : Type} (a b : option A) : option A :=
  match a with
  | Some _ => a
  | None => b
  end.

(** What [nn.Module.register_buffer] refuses in a name. *)
Inductive key_error : Type :=
| KeyError_dot
| KeyError_empty.

(** ["." in name] *)
Fixpoint contains_dot (s : string) : bool :=
  match s with
  | EmptyString => false
  | String c s' => Ascii.eqb c "."%char || contains_dot s'
  end.

(** [d[k] = v] on an ordered dict: a key already there keeps its place and
    takes the new value, a new key goes last. *)
Fixpoint dict_set {A : Type} (d : list (string * A)) (k : string) (v : A)
  : list (string * A) :=
  match d with
  | [] => [(k, v)]
  | (k', v') :: d' =>
      if String.eqb k' k then (k', v) :: d' else (k', v') :: dict_set d' k v
  end.

Module BufferList.

(** The module's [_buffers], an ordered dict from names to tensors. *)
Record t (A : Type) : Type := mk { _buffers : list (string * A) }.

Arguments mk {A} _buffers.
Arguments _buffers {A} t.

(** [self.register_buffer(name, tensor)]: the name may not hold a dot nor
    be empty; then [self._buffers[name] = tensor].  (Its check against the
    other attributes of the module is left out: those are identifiers, and
    the names registered here are decimal numerals.) *)
Definition register_buffer {A : Type} (self : t A) (name : string) (tensor : A)
  : key_error + t A :=
  if contains_dot name then inl KeyError_dot
  else if String.eqb name EmptyString then inl KeyError_empty
  else inr (mk (dict_set (_buffers self) name tensor)).

(** [for i, buffer in enumerate(buffers): self.register_buffer(str(i), buffer)],
    from index [i] on. *)
Fixpoint register_from {A : Type} (self : t A) (i : nat) (buffers : list A)
  : key_error + t A :=
  match buffers with
  | [] => inr self
  | buffer :: rest =>
      match register_buffer self (str_of_nat i) buffer with
      | inl e => inl e
      | inr self' => register_from self' (S i) rest
      end
  end.

Definition __init__ {A : Type} (buffers : list A) : key_error + t A :=
  register_from (mk []) 0 buffers.




End BufferList.

Open Scope R_scope.

(** The defaults of [config.py] that [AnchorGenerator] takes. *)
Definition ANCHOR_SIZES : params R :=
  Nested (map (fun x => [x; x * Rpower 2 (1 / 3); x * Rpower 2 (2 / 3)])
              [32; 64; 128; 256; 512]).

Definition ANCHOR_STRIDES : list Z := [8; 16; 32; 64; 128]%Z.

Definition ANCHOR_OFFSET : R := 0.

Definition ANCHOR_ASPECT_RATIOS : params R := Flat [1 / 2; 1; 2].

Close Scope R_scope.

(** ** What the properties are stated with *)

(** The input is a list of two or more nested lists, and not one per level. *)
Definition length_mismatch {F : Type} (p : params F) (n : nat) : Prop :=
  exists xss, p = Nested xss /\ 1 < length xss /\ length xss <> n.

Open Scope R_scope.

(** The box the specification gives for a size and an aspect ratio:
    [(-w/2, -h/2, w/2, h/2)] with [w = sqrt(size^2 / aspect_ratio)] and
    [h = aspect_ratio * w]. *)
Definition spec_cell_box (size aspect_ratio : R) : box R :=
  let w := sqrt (size ^ 2 / aspect_ratio) in
  let h := aspect_ratio * w in
  mkBox (- w / 2) (- h / 2) (w / 2) (h / 2).

(** The 1-D line of offsets of [n] cells: [offset * stride + stride * i]. *)
Definition offsets_line (offset0 : R) (stride : Z) (n : Z) : list R :=
  map (fun i => offset0 * IZR stride + IZR stride * IZR (Z.of_nat i)) (seq 0 (Z.to_nat n)).

(** The two flat tensors [_compute_grid_offsets] returns for [h] rows and
    [w] columns. *)
Definition grid_xs (offset0 : R) (stride h w : Z) : list R :=
  concat (map (fun _ => offsets_line offset0 stride w) (offsets_line offset0 stride h)).

Definition grid_ys (offset0 : R) (stride h w : Z) : list R :=
  concat (map (fun y => map (fun _ => y) (offsets_line offset0 stride w))
              (offsets_line offset0 stride h)).






(** The [(H, W)] of a level as [grid_anchors] receives it. *)
Definition shape_size (hw : nat * nat) : list Z := [Z.of_nat (fst hw); Z.of_nat (snd hw)].

(** An offset above 0 needs at least one row and one column. *)
Definition shape_fits (offset0 : R) (hw : nat * nat) : Prop :=
  offset0 = 0 \/ (1 <= fst hw /\ 1 <= snd hw)%nat.

Close Scope R_scope.

(** A generator of two levels, built on binary64. *)
Definition two_level_generator : AnchorGenerator float :=
  {| strides := [8; 16]%Z; num_features := 2;
     sizes := [[32; 64]; [32; 64]]%float;
     aspect_ratios := [[1; 4]; [1; 4]]%float;
     cell_anchors :=
       [[mkBox (-16) (-16) 16 16; mkBox (-8) (-32) 8 32;
         mkBox (-32) (-32) 32 32; mkBox (-16) (-64) 16 64];
        [mkBox (-16) (-16) 16 16; mkBox (-8) (-32) 8 32;
         mkBox (-32) (-32) 32 32; mkBox (-16) (-64) 16 64]]%float;
     offset := 0%float |}.

(** ** The definitions run: binary64 *)

Open Scope float_scope.

Example broadcast_flat_runs :
  _broadcast_params (Flat [5.0]) 3 "x" = Ok [[5.0]; [5.0]; [5.0]].
Proof. vm_compute. reflexivity. Qed.

Example broadcast_mismatch_runs :
  _broadcast_params (Nested [[1.0]; [2.0]]) 3 "x"
  = Raise (AssertionError
      "Got x of length 2 in anchor generator, but the number of input features is 3!").
Proof. vm_compute. reflexivity. Qed.

Example cell_anchors_run :
  generate_cell_anchors [32.0; 64.0] [1.0; 4.0]
  = Ok [mkBox (-16) (-16) 16 16; mkBox (-8) (-32) 8 32;
        mkBox (-32) (-32) 32 32; mkBox (-16) (-64) 16 64].
Proof. vm_compute. reflexivity. Qed.

Example grid_offsets_run :
  _compute_grid_offsets [2; 3]%Z 8 0.0
  = Ok ([0; 8; 16; 0; 8; 16], [0; 0; 0; 8; 8; 8]).
Proof. vm_compute. reflexivity. Qed.

Example grid_offsets_half_run :
  _compute_grid_offsets [2; 3]%Z 8 0.5
  = Ok ([4; 12; 20; 4; 12; 20], [4; 4; 4; 12; 12; 12]).
Proof. vm_compute. reflexivity. Qed.

(** Nine cell anchors on a 2 x 3 level: 54 boxes. *)
Example output_cardinality_runs :
  (g <- __init__ (Flat [32; 64; 128]) (Flat [0.5; 1; 2]) [8]%Z 0 ;;
   out <- forward g [[1; 256; 2; 3]%Z] ;;
   Ok (num_anchors g, map (fun t => length t) out)) = Ok ([9], [54])%nat.
Proof. vm_compute. reflexivity. Qed.

Close Scope float_scope.

(** ** Results and loops *)

Lemma bind_Ok {A B : Type} (c : result A) (k : A -> result B) (b : B) :
  bind c k = Ok b -> exists a, c = Ok a /\ k a = Ok b.
Proof.
  destruct c as [a|e]; simpl; intros Hk; [eauto | discriminate].
Qed.


Lemma result_cases {A : Type} (r : result A) : (exists a, r = Ok a) \/ raises r.
Proof.
  destruct r as [a|e]; [left; eauto | right; exists e; reflexivity].
Qed.


(** A loop whose bodies all return collects their values. *)
Lemma mapM_all_Ok {A B : Type} (f : A -> result B) (g : A -> B) (l : list A) :
  (forall a, In a l -> f a = Ok (g a)) -> mapM f l = Ok (map g l).
Proof.
  induction l as [|a l IH]; simpl; intros Hf; [reflexivity|].
  rewrite (Hf a) by (left; reflexivity). simpl.
  rewrite IH by (intros a' Ha'; apply Hf; right; exact Ha'). reflexivity.
Qed.

(** A loop that returns ran every body, in order. *)
Lemma mapM_Ok_inv {A B : Type} (f : A -> result B) (l : list A) (bs : list B) :
  mapM f l = Ok bs -> Forall2 (fun a b => f a = Ok b) l bs.
Proof.
  revert bs. induction l as [|a l IH]; simpl; intros bs Hm.
  - injection Hm as <-. constructor.
  - apply bind_Ok in Hm as (b & Hb & Hm).
    apply bind_Ok in Hm as (bs' & Hbs & Hm).
    injection Hm as <-. constructor; [exact Hb | apply IH; exact Hbs].
Qed.


Lemma Forall2_length_eq {A B : Type} (P : A -> B -> Prop) (l : list A) (l' : list B) :
  Forall2 P l l' -> length l = length l'.
Proof.
  induction 1; simpl; congruence.
Qed.

(** ** Flattening a tensor whose rows have one length *)

Lemma length_concat_uniform {A : Type} (n : nat) (rows : list (list A)) :
  Forall (fun r => length r = n) rows -> length (concat rows) = length rows * n.
Proof.
  induction 1 as [|r rows Hr _ IH]; simpl; [reflexivity|].
  rewrite length_app, IH, Hr. reflexivity.
Qed.


(** ** The parameter broadcaster *)

Section Broadcast.

Variable F : Type.

Example str_of_nat_runs : str_of_nat 12 = "12"%string.
Proof. reflexivity. Qed.

Lemma list_times_singleton {A : Type} (x : A) (n : nat) : list_times [x] n = repeat x n.
Proof.
  unfold list_times. induction n as [|n IH]; simpl; [reflexivity | rewrite IH; reflexivity].
Qed.

Lemma list_times_once {A : Type} (l : list A) : list_times l 1 = l.
Proof.
  unfold list_times. simpl. apply app_nil_r.
Qed.


(** C9: broadcast fails exactly when its input is not a list, is empty, or
    is a list of more than one nested list whose length differs from
    num_levels; every failure is a failed assertion; on a length mismatch
    the message names the parameter and both lengths; in every other case
    broadcast returns. *)
Theorem broadcast_fails_exactly (p : params F) (n : nat) (name : string) :
  (raises (_broadcast_params p n name) <->
     is_list_or_tuple p = false \/ len p = 0 \/ length_mismatch p n) /\
  (forall e, _broadcast_params p n name = Raise e -> exists msg, e = AssertionError msg) /\
  (forall xss, p = Nested xss -> 1 < length xss -> length xss <> n ->
     _broadcast_params p n name =
     Raise (AssertionError
              ("Got " ++ name ++ " of length " ++ str_of_nat (length xss)
               ++ " in anchor generator, but the number of input features is "
               ++ str_of_nat n ++ "!")%string)) /\
  (~ (is_list_or_tuple p = false \/ len p = 0 \/ length_mismatch p n) ->
     exists r, _broadcast_params p n name = Ok r).
Proof.
  assert (Hmis : forall xss : list (list F), 1 < length xss -> length xss <> n ->
            _broadcast_params (Nested xss) n name =
            Raise (AssertionError
              ("Got " ++ name ++ " of length " ++ str_of_nat (length xss)
               ++ " in anchor generator, but the number of input features is "
               ++ str_of_nat n ++ "!")%string)).
  { intros xss H1 Hn. unfold _broadcast_params. simpl.
    destruct (length xss =? 0) eqn:E0; [apply Nat.eqb_eq in E0; lia|].
    destruct (length xss =? 1) eqn:E1; [apply Nat.eqb_eq in E1; lia|].
    destruct (length xss =? n) eqn:En; [apply Nat.eqb_eq in En; lia|].
    reflexivity. }
  assert (Hiff : raises (_broadcast_params p n name) <->
            is_list_or_tuple p = false \/ len p = 0 \/ length_mismatch p n).
  { destruct p as [xs|xss|s].
    - destruct xs as [|x xs].
      + split; [intros _; right; left; reflexivity | intros _; eexists; reflexivity].
      + split; [intros [e He]; discriminate|].
        intros [Hf | [Hl | (xss & Hp & _)]]; discriminate.
    - destruct (Nat.eq_dec (length xss) 0) as [E0|E0].
      { destruct xss; [|discriminate].
        split; [intros _; right; left; reflexivity | intros _; eexists; reflexivity]. }
      destruct (Nat.eq_dec (length xss) 1) as [E1|E1].
      { unfold _broadcast_params. simpl.
        rewrite (proj2 (Nat.eqb_neq _ _) E0), (proj2 (Nat.eqb_eq _ _) E1).
        split; [intros [e He]; discriminate|].
        intros [Hf | [Hl | (xss' & Hp & H1 & _)]]; simpl in *; try discriminate; try lia.
        injection Hp as <-. lia. }
      destruct (Nat.eq_dec (length xss) n) as [En|En].
      { unfold _broadcast_params. simpl.
        rewrite (proj2 (Nat.eqb_neq _ _) E0), (proj2 (Nat.eqb_neq _ _) E1),
          (proj2 (Nat.eqb_eq _ _) En).
        split; [intros [e He]; discriminate|].
        intros [Hf | [Hl | (xss' & Hp & _ & Hne)]]; simpl in *; try discriminate; try lia.
        injection Hp as <-. lia. }
      split.
      + intros _. right; right. exists xss. repeat split; [lia | exact En].
      + intros _. rewrite Hmis by lia. eexists; reflexivity.
    - split; [intros _; left; reflexivity | intros _; eexists; reflexivity]. }
  split; [exact Hiff|]. split; [|split].
  - intros e He. unfold _broadcast_params in He.
    destruct (negb (is_list_or_tuple p)); [injection He as <-; eauto|].
    destruct (len p =? 0); [injection He as <-; eauto|].
    destruct p as [xs|xss|s]; try discriminate.
    destruct (length xss =? 1); [discriminate|].
    destruct (negb (length xss =? n)); [injection He as <-; eauto | discriminate].
  - intros xss -> H1 Hn. apply Hmis; assumption.
  - intros Hnot. destruct (result_cases (_broadcast_params p n name)) as [Hok|Hr];
      [exact Hok | exfalso; apply Hnot, Hiff, Hr].
Qed.

End Broadcast.



(** ** Construction and the accessors *)

Lemma Forall2_nth_error {A B : Type} (P : A -> B -> Prop) (l : list A) (l' : list B)
    (i : nat) (a : A) :
  Forall2 P l l' -> nth_error l i = Some a -> exists b, nth_error l' i = Some b /\ P a b.
Proof.
  intros Hall. revert i. induction Hall as [|x y l l' Hxy _ IH]; intros i Hi.
  - destruct i; discriminate.
  - destruct i as [|i]; simpl in *; [injection Hi as ->; eauto | apply IH; exact Hi].
Qed.

Lemma nth_error_combine {A B : Type} (l : list A) (l' : list B) (i : nat) (a : A) (b : B) :
  nth_error l i = Some a -> nth_error l' i = Some b ->
  nth_error (combine l l') i = Some (a, b).
Proof.
  revert l' i. induction l as [|x l IH]; intros [|y l'] [|i]; simpl; try discriminate.
  - intros [= ->] [= ->]. reflexivity.
  - apply IH.
Qed.

Section Construction.

Context {F : Type} `{Arith F}.

Lemma broadcast_length (p : params F) (n : nat) (name : string) (r : list (list F)) :
  _broadcast_params p n name = Ok r -> length r = n.
Proof.
  unfold _broadcast_params.
  destruct p as [xs|xss|s]; simpl; [| |discriminate].
  - destruct (length xs =? 0); [discriminate|].
    intros [= <-]. apply repeat_length.
  - destruct (length xss =? 0); [discriminate|].
    destruct (length xss =? 1) eqn:E1.
    + intros [= <-]. apply Nat.eqb_eq in E1.
      destruct xss as [|xs [|? ?]]; try discriminate.
      rewrite list_times_singleton. apply repeat_length.
    + destruct (length xss =? n) eqn:En; simpl; [|discriminate].
      intros [= <-]. apply Nat.eqb_eq. exact En.
Qed.

(** Cell-anchor synthesis, when it returns, returns one box per pair. *)
Lemma generate_cell_anchors_length (ss ars : list F) (boxes : list (box F)) :
  generate_cell_anchors ss ars = Ok boxes -> length boxes = length ss * length ars.
Proof.
  unfold generate_cell_anchors. intros Hg.
  apply bind_Ok in Hg as (rows & Hrows & [= <-]).
  apply mapM_Ok_inv in Hrows.
  rewrite (Forall2_length_eq Hrows).
  apply length_concat_uniform.
  induction Hrows as [|s row ss' rows Hrow _ IH]; constructor; [|exact IH].
  apply mapM_Ok_inv in Hrow. symmetry. exact (Forall2_length_eq Hrow).
Qed.

(** What construction stores. *)
Lemma init_Ok_inv (sizes0 aspect_ratios0 : params F) (strides0 : list Z) (offset0 : F)
    (g : AnchorGenerator F) :
  __init__ sizes0 aspect_ratios0 strides0 offset0 = Ok g ->
  exists ss ars cas,
    _broadcast_params sizes0 (length strides0) "sizes" = Ok ss /\
    _broadcast_params aspect_ratios0 (length strides0) "aspect_ratios" = Ok ars /\
    Forall2 (fun sa ca => generate_cell_anchors (fst sa) (snd sa) = Ok ca)
            (combine ss ars) cas /\
    length ss = length strides0 /\ length ars = length strides0 /\
    length cas = length strides0 /\
    g = mkAnchorGenerator strides0 (length strides0) ss ars cas offset0.
Proof.
  unfold __init__. intros Hinit.
  apply bind_Ok in Hinit as (ss & Hss & Hinit).
  apply bind_Ok in Hinit as (ars & Hars & Hinit).
  apply bind_Ok in Hinit as (cas & Hcas & [= <-]).
  pose proof (broadcast_length _ _ _ Hss) as Lss.
  pose proof (broadcast_length _ _ _ Hars) as Lars.
  unfold _calculate_anchors in Hcas. apply mapM_Ok_inv in Hcas.
  pose proof (Forall2_length_eq Hcas) as Lcas. rewrite length_combine in Lcas.
  exists ss, ars, cas. repeat split; try assumption; [|lia].
  eapply Forall2_impl; [|exact Hcas]. intros [s a] ca Hx. exact Hx.
Qed.

(** C7, amended: construction does not look at offset.  With any two
    offsets it fails alike, or returns generators that differ in the stored
    offset only; in particular no offset makes construction fail. *)
Theorem init_ignores_offset (sizes0 aspect_ratios0 : params F) (strides0 : list Z)
    (off off' : F) :
  __init__ sizes0 aspect_ratios0 strides0 off =
  match __init__ sizes0 aspect_ratios0 strides0 off' with
  | Ok g => Ok (mkAnchorGenerator (strides g) (num_features g) (sizes g)
                  (aspect_ratios g) (cell_anchors g) off)
  | Raise e => Raise e
  end.
Proof.
  unfold __init__.
  destruct (_broadcast_params sizes0 _ _) as [ss|e]; simpl; [|reflexivity].
  destruct (_broadcast_params aspect_ratios0 _ _) as [ars|e]; simpl; [|reflexivity].
  destruct (_calculate_anchors ss ars) as [cas|e]; simpl; reflexivity.
Qed.

(** C10: on a constructed generator, [num_cell_anchors] and [num_anchors]
    return the same list, read off the stored cell anchors; it has one entry
    per level (stride), and the entry of level [i] is the number of sizes
    times the number of aspect ratios of the broadcast parameters of that
    level. *)
Theorem num_anchors_spec (sizes0 aspect_ratios0 : params F) (strides0 : list Z)
    (offset0 : F) (g : AnchorGenerator F) :
  __init__ sizes0 aspect_ratios0 strides0 offset0 = Ok g ->
  num_cell_anchors g = num_anchors g /\
  num_anchors g = map (fun ca => length ca) (cell_anchors g) /\
  length (num_anchors g) = length strides0 /\
  _broadcast_params sizes0 (length strides0) "sizes" = Ok (sizes g) /\
  _broadcast_params aspect_ratios0 (length strides0) "aspect_ratios" = Ok (aspect_ratios g) /\
  length (sizes g) = length strides0 /\
  length (aspect_ratios g) = length strides0 /\
  forall i, i < length strides0 ->
    exists s a, nth_error (sizes g) i = Some s /\ nth_error (aspect_ratios g) i = Some a /\
                nth_error (num_anchors g) i = Some (length s * length a).
Proof.
  intros Hinit.
  destruct (init_Ok_inv _ _ _ _ Hinit) as (ss & ars & cas & Hss & Hars & Hcas & Lss & Lars & Lcas & ->).
  unfold num_cell_anchors, num_anchors. simpl.
  repeat split; try assumption.
  - rewrite length_map. exact Lcas.
  - intros i Hi.
    destruct (nth_error ss i) as [s|] eqn:Hs;
      [|apply nth_error_None in Hs; lia].
    destruct (nth_error ars i) as [a|] eqn:Ha;
      [|apply nth_error_None in Ha; lia].
    exists s, a. repeat split.
    destruct (Forall2_nth_error _ Hcas (nth_error_combine _ _ _ Hs Ha)) as (ca & Hca & Hg).
    rewrite nth_error_map, Hca. simpl.
    rewrite (generate_cell_anchors_length _ _ Hg). reflexivity.
Qed.

End Construction.

Lemma two_level_generator_built :
  __init__ (Flat [32; 64]%float) (Flat [1; 4]%float) [8; 16]%Z 0%float
  = Ok two_level_generator.
Proof. vm_compute. reflexivity. Qed.

Lemma num_anchors_spec_witness :
  num_cell_anchors two_level_generator = [4; 4] /\
  num_anchors two_level_generator = [4; 4].
Proof.
  destruct (num_anchors_spec _ _ _ _ two_level_generator_built) as (Heq & Hmap & _).
  rewrite Heq, Hmap. split; reflexivity.
Defined.

(** ** Cell-anchor synthesis over the reals *)

Open Scope R_scope.

Lemma truediv_R (x y : R) :
  truediv x y = if Req_dec_T y 0 then Raise ZeroDivisionError else Ok (x / y).
Proof.
  unfold truediv. simpl. destruct (Req_dec_T y 0); reflexivity.
Qed.

Lemma math_sqrt_R (x : R) :
  math_sqrt x = if Rlt_dec x 0 then Raise ValueError else Ok (sqrt x).
Proof.
  unfold math_sqrt. simpl. destruct (Rlt_dec x 0); reflexivity.
Qed.

(** The box of one (size, aspect ratio) pair, as [generate_cell_anchors]
    builds it. *)
Lemma cell_anchor_Ok (s a : R) :
  a <> 0 -> 0 <= s * s / a ->
  cell_anchor (pow2 s) a =
  Ok (let w := sqrt (s * s / a) in let h := a * w in
      mkBox (- w / 2) (- h / 2) (w / 2) (h / 2)).
Proof.
  intros Ha Hq. unfold cell_anchor. rewrite truediv_R.
  destruct (Req_dec_T a 0) as [E|_]; [contradiction|]. simpl bind.
  rewrite math_sqrt_R. unfold pow2. simpl fmul.
  destruct (Rlt_dec (s * s / a) 0) as [E|_]; [lra|]. reflexivity.
Qed.







Lemma generate_cell_anchors_closed_form (ss ars : list R) :
  (forall s a, In s ss -> In a ars -> a <> 0 /\ 0 <= s * s / a) ->
  generate_cell_anchors ss ars
  = Ok (concat (map (fun s => map (fun a => spec_cell_box s a) ars) ss)).
Proof.
  intros Hok. unfold generate_cell_anchors.
  rewrite (mapM_all_Ok _ (fun s => map (fun a => spec_cell_box s a) ars)); [reflexivity|].
  intros s Hs. apply mapM_all_Ok. intros a Ha.
  destruct (Hok s a Hs Ha) as [Ha0 Hq].
  rewrite cell_anchor_Ok by assumption.
  unfold spec_cell_box. replace (s ^ 2) with (s * s) by ring. reflexivity.
Qed.

Lemma positive_pair_ok (s a : R) : 0 < a -> a <> 0 /\ 0 <= s * s / a.
Proof.
  intros Ha. split; [lra|]. unfold Rdiv.
  assert (0 < / a) by (apply Rinv_0_lt_compat; exact Ha). nra.
Qed.




(** ** Grid offsets over the reals *)

Lemma Rceil_bounds (x : R) : IZR (Rceil x) - 1 < x <= IZR (Rceil x).
Proof.
  unfold Rceil. rewrite minus_IZR.
  destruct (archimed (- x)) as [Hup Hlow]. lra.
Qed.

(** [ceil(n - o) = n] for an integer [n] and [0 <= o < 1]. *)
Lemma Rceil_shift (n : Z) (o : R) : 0 <= o < 1 -> Rceil (IZR n - o) = n.
Proof.
  intros Ho. destruct (Rceil_bounds (IZR n - o)) as [Hlo Hhi].
  assert (H1 : (Rceil (IZR n - o) < n + 1)%Z) by (apply lt_IZR; rewrite plus_IZR; lra).
  assert (H2 : (n - 1 < Rceil (IZR n - o))%Z) by (apply lt_IZR; rewrite minus_IZR; lra).
  lia.
Qed.

Lemma torch_arange_R (offset0 : R) (stride n : Z) :
  (0 < stride)%Z -> 0 <= offset0 < 1 ->
  torch_arange (offset0 * IZR stride) (IZR (n * stride)) (IZR stride)
  = if Rle_dec offset0 (IZR n) then Ok (offsets_line offset0 stride n)
    else Raise RuntimeError.
Proof.
  intros Hs Ho. assert (Hs' : 0 < IZR stride) by (apply (IZR_lt 0); exact Hs).
  unfold torch_arange. simpl. rewrite mult_IZR.
  destruct (Req_dec_T (IZR stride) 0) as [E|_]; [lra|].
  destruct (Rlt_dec 0 (IZR stride)) as [_|N]; [|contradiction].
  destruct (Rlt_dec (IZR stride) 0) as [E|_]; [lra|].
  simpl.
  destruct (Rle_dec (offset0 * IZR stride) (IZR n * IZR stride)) as [Hle|Hgt];
    destruct (Rle_dec offset0 (IZR n)) as [Hle'|Hgt']; simpl; try nra.
  - replace ((IZR n * IZR stride - offset0 * IZR stride) / IZR stride)
      with (IZR n - offset0) by (field; lra).
    rewrite Rceil_shift by exact Ho. reflexivity.
  - reflexivity.
Qed.

Lemma compute_grid_offsets_R (offset0 : R) (stride h w : Z) :
  (0 < stride)%Z -> 0 <= offset0 < 1 ->
  _compute_grid_offsets [h; w] stride offset0
  = if Rle_dec offset0 (IZR w) then
      if Rle_dec offset0 (IZR h) then
        Ok (grid_xs offset0 stride h w, grid_ys offset0 stride h w)
      else Raise RuntimeError
    else Raise RuntimeError.
Proof.
  intros Hs Ho. unfold _compute_grid_offsets. cbn [unpack2 bind].
  change (fmul offset0 (of_int stride)) with (offset0 * IZR stride).
  change (of_int (w * stride)) with (IZR (w * stride)).
  change (of_int (h * stride)) with (IZR (h * stride)).
  change (of_int stride) with (IZR stride).
  rewrite !torch_arange_R by assumption.
  destruct (Rle_dec offset0 (IZR w)); [|reflexivity]. cbn [bind].
  destruct (Rle_dec offset0 (IZR h)); reflexivity.
Qed.

Lemma offsets_line_length (offset0 : R) (stride : Z) (n : nat) :
  length (offsets_line offset0 stride (Z.of_nat n)) = n.
Proof.
  unfold offsets_line. rewrite length_map, length_seq. apply Nat2Z.id.
Qed.


Lemma grid_lengths (offset0 : R) (stride : Z) (h w : nat) :
  length (grid_xs offset0 stride (Z.of_nat h) (Z.of_nat w)) = (h * w)%nat /\
  length (grid_ys offset0 stride (Z.of_nat h) (Z.of_nat w)) = (h * w)%nat.
Proof.
  unfold grid_xs, grid_ys. split.
  - rewrite (@length_concat_uniform _ w).
    + rewrite length_map, offsets_line_length. reflexivity.
    + apply Forall_forall. intros r Hr. apply in_map_iff in Hr as (y & <- & _).
      apply offsets_line_length.
  - rewrite (@length_concat_uniform _ w).
    + rewrite length_map, offsets_line_length. reflexivity.
    + apply Forall_forall. intros r Hr. apply in_map_iff in Hr as (y & <- & _).
      rewrite length_map. apply offsets_line_length.
Qed.


(** Whether the two ranges of a level are accepted: an offset above 0 needs
    at least one row and one column. *)
Lemma offset_fits (offset0 : R) (n : nat) :
  0 <= offset0 < 1 -> (offset0 <= IZR (Z.of_nat n) <-> offset0 = 0 \/ (1 <= n)%nat).
Proof.
  intros Ho. rewrite <- INR_IZR_INZ. split.
  - intros Hle. destruct n as [|n]; [left; simpl in Hle; lra | right; lia].
  - intros [-> | Hn]; [apply pos_INR|].
    apply (le_INR 1) in Hn. simpl in Hn. lra.
Qed.




(** ** Tiling *)

Close Scope R_scope.

Section Tiling.

Context {F : Type} `{Arith F}.

Lemma torch_stack4_Ok (sx sy : list F) :
  length sx = length sy ->
  torch_stack4 sx sy = Ok (map (fun '(x, y) => mkBox x y x y) (combine sx sy)).
Proof.
  intros Hlen. unfold torch_stack4. rewrite Hlen, Nat.eqb_refl. reflexivity.
Qed.

Lemma tile_length (shifts base : list (box F)) :
  length (tile shifts base) = length shifts * length base.
Proof.
  unfold tile. rewrite (@length_concat_uniform _ (length base)).
  - rewrite length_map. reflexivity.
  - apply Forall_forall. intros r Hr. apply in_map_iff in Hr as (s & <- & _).
    apply length_map.
Qed.


End Tiling.

Open Scope R_scope.

(** The anchors of one level, once its grid offsets are known. *)
Lemma grid_anchors_level_R (offset0 : R) (stride : Z) (h w : nat) (base : list (box R)) :
  (0 < stride)%Z -> 0 <= offset0 < 1 ->
  offset0 <= IZR (Z.of_nat w) -> offset0 <= IZR (Z.of_nat h) ->
  grid_anchors_level offset0 [Z.of_nat h; Z.of_nat w] stride base
  = Ok (tile (map (fun '(x, y) => mkBox x y x y)
                  (combine (grid_xs offset0 stride (Z.of_nat h) (Z.of_nat w))
                           (grid_ys offset0 stride (Z.of_nat h) (Z.of_nat w))))
             base).
Proof.
  intros Hs Ho Hw Hh. unfold grid_anchors_level.
  rewrite compute_grid_offsets_R by assumption.
  destruct (Rle_dec offset0 (IZR (Z.of_nat w))) as [_|N]; [|contradiction].
  destruct (Rle_dec offset0 (IZR (Z.of_nat h))) as [_|N]; [|contradiction].
  cbn [bind]. destruct (grid_lengths offset0 stride h w) as [Lx Ly].
  rewrite torch_stack4_Ok by congruence. reflexivity.
Qed.




(** ** The whole pyramid *)

Lemma grid_levels_R (offset0 : R) (shapes : list (nat * nat)) :
  0 <= offset0 < 1 -> Forall (shape_fits offset0) shapes ->
  forall (strides0 : list Z) (cas : list (list (box R))),
  Forall (fun s => (0 < s)%Z) strides0 ->
  exists per_level,
    mapM (fun '(size, stride, base) => grid_anchors_level offset0 size stride base)
         (zip3 (map shape_size shapes) strides0 cas) = Ok per_level /\
    length per_level = Nat.min (length shapes) (Nat.min (length strides0) (length cas)) /\
    forall i out, nth_error per_level i = Some out ->
      exists h w base, nth_error shapes i = Some (h, w) /\ nth_error cas i = Some base /\
                       length out = (h * w * length base)%nat.
Proof.
  intros Ho Hfit. induction Hfit as [|[h w] shapes Hhw _ IH]; intros strides0 cas Hst.
  - exists []. split; [reflexivity|]. split; [reflexivity|].
    intros [|i] out Hi; discriminate.
  - destruct Hst as [|stride strides0 Hs Hst].
    { exists []. split; [reflexivity|]. split; [reflexivity|].
      intros [|i] out Hi; discriminate. }
    destruct cas as [|base cas].
    { exists []. split; [reflexivity|]. split; [simpl; lia|].
      intros [|i] out Hi; discriminate. }
    destruct (IH strides0 cas Hst) as (rest & Hrest & Hlen & Hidx).
    unfold shape_fits in Hhw. cbn [fst snd] in Hhw.
    assert (Hw : offset0 <= IZR (Z.of_nat w)) by (apply offset_fits; tauto).
    assert (Hh : offset0 <= IZR (Z.of_nat h)) by (apply offset_fits; tauto).
    eexists (_ :: rest). split; [|split].
    + cbn [map zip3 mapM].
      change (shape_size (h, w)) with [Z.of_nat h; Z.of_nat w].
      rewrite grid_anchors_level_R by assumption. cbn [bind].
      rewrite Hrest. reflexivity.
    + simpl. rewrite Hlen. reflexivity.
    + intros [|i] out Hi.
      * injection Hi as <-. exists h, w, base. repeat split.
        destruct (grid_lengths offset0 stride h w) as [Lx Ly].
        rewrite tile_length, length_map, length_combine, Lx, Ly, Nat.min_id. reflexivity.
      * apply (Hidx i out Hi).
Qed.


(** [grid_anchors] and [forward] on a constructed generator. *)
Lemma generate_R (sizes0 ars0 : params R) (strides0 : list Z) (offset0 : R)
    (g : AnchorGenerator R) (shapes : list (nat * nat)) (features : list (list Z)) :
  __init__ sizes0 ars0 strides0 offset0 = Ok g ->
  0 <= offset0 < 1 -> Forall (fun s => (0 < s)%Z) strides0 ->
  Forall (shape_fits offset0) shapes ->
  map last2 features = map shape_size shapes ->
  exists per_level,
    grid_anchors g (map shape_size shapes) = Ok per_level /\
    forward g features = (_ <- torch_cat per_level ;; Ok [concat per_level]) /\
    length per_level = Nat.min (length shapes) (length strides0) /\
    forall i out, nth_error per_level i = Some out ->
      exists h w n, nth_error shapes i = Some (h, w) /\
                    nth_error (num_cell_anchors g) i = Some n /\
                    length out = (h * w * n)%nat.
Proof.
  intros Hinit Ho Hst Hfit Hfeat.
  destruct (init_Ok_inv _ _ _ _ Hinit) as (ss & ars & cas & _ & _ & _ & _ & _ & Lcas & ->).
  destruct (grid_levels_R Ho Hfit cas Hst) as (per_level & Hrun & Hlen & Hidx).
  exists per_level. unfold forward, grid_anchors. cbn [offset strides cell_anchors].
  rewrite Hfeat, Hrun. split; [reflexivity|]. split; [|split].
  - cbn [bind]. destruct per_level; reflexivity.
  - rewrite Hlen, Lcas, Nat.min_id. reflexivity.
  - intros i out Hi. destruct (Hidx i out Hi) as (h & w & base & Hs & Hb & Hl).
    exists h, w, (length base). repeat split; [exact Hs | | exact Hl].
    unfold num_cell_anchors, num_anchors. cbn [cell_anchors].
    rewrite nth_error_map, Hb. reflexivity.
Qed.








Lemma one_level_built_R (offset0 : R) :
  __init__ (Flat [32]) (Flat [1]) [8]%Z offset0
  = Ok {| strides := [8]%Z; num_features := 1; sizes := [[32]];
          aspect_ratios := [[1]]; cell_anchors := [[spec_cell_box 32 1]];
          offset := offset0 |}.
Proof.
  unfold __init__. cbn [_broadcast_params is_list_or_tuple len length negb Nat.eqb
                        list_repeat repeat bind _calculate_anchors combine mapM].
  rewrite generate_cell_anchors_closed_form
    by (intros s a [<-|[]] [<-|[]]; apply positive_pair_ok; lra).
  reflexivity.
Qed.


(** C7, as stated, fails: construction with offset 1.0, or -0.1, returns a
    generator (on binary64 and on the reals). *)
Lemma init_offset_out_of_range_returns :
  __init__ (Flat [32]%float) (Flat [1]%float) [8]%Z 1%float
  = Ok {| strides := [8]%Z; num_features := 1; sizes := [[32]]%float;
          aspect_ratios := [[1]]%float;
          cell_anchors := [[mkBox (-16) (-16) 16 16]]%float; offset := 1%float |} /\
  __init__ (Flat [32]%float) (Flat [1]%float) [8]%Z (-0.1)%float
  = Ok {| strides := [8]%Z; num_features := 1; sizes := [[32]]%float;
          aspect_ratios := [[1]]%float;
          cell_anchors := [[mkBox (-16) (-16) 16 16]]%float; offset := (-0.1)%float |} /\
  __init__ (Flat [32]) (Flat [1]) [8]%Z 1
  = Ok {| strides := [8]%Z; num_features := 1; sizes := [[32]];
          aspect_ratios := [[1]]; cell_anchors := [[spec_cell_box 32 1]];
          offset := 1 |} /\
  __init__ (Flat [32]) (Flat [1]) [8]%Z (-1 / 10)
  = Ok {| strides := [8]%Z; num_features := 1; sizes := [[32]];
          aspect_ratios := [[1]]; cell_anchors := [[spec_cell_box 32 1]];
          offset := -1 / 10 |}.
Proof.
  split; [vm_compute; reflexivity|]. split; [vm_compute; reflexivity|].
  split; apply one_level_built_R.
Qed.

(** * Beyond the claims *)

Close Scope R_scope.

(** ** [ifnone] *)

(** X1: chains of [ifnone] pick the first argument that is not [None]:
    [ifnone] is associative, [None] is neutral on both sides, and the result
    is [None] only when both arguments are. *)
Theorem ifnone_first_not_none {A : Type} (a b c : option A) :
  ifnone a (ifnone b c) = ifnone (ifnone a b) c /\
  ifnone None b = b /\
  ifnone a None = a /\
  (ifnone a b = None <-> a = None /\ b = None).
Proof.
  destruct a as [x|], b as [y|]; simpl; repeat split; try reflexivity;
    try discriminate; intros [Ha Hb]; discriminate.
Qed.

(** ** [BufferList] *)












(** ** In every arithmetic *)

Lemma mapM_app {A B : Type} (f : A -> result B) (l1 l2 : list A) :
  mapM f (l1 ++ l2) = (a <- mapM f l1 ;; b <- mapM f l2 ;; Ok (a ++ b)).
Proof.
  induction l1 as [|x l1 IH]; simpl.
  - destruct (mapM f l2); reflexivity.
  - destruct (f x) as [y|e]; simpl; [|reflexivity].
    rewrite IH. destruct (mapM f l1) as [a|e]; simpl; [|reflexivity].
    destruct (mapM f l2) as [b|e]; reflexivity.
Qed.

Lemma zip3_firstn {A B C : Type} (a : list A) (b : list B) (c : list C) (n : nat) :
  length b <= n -> zip3 (firstn n a) b c = zip3 a b c.
Proof.
  revert b c n. induction a as [|x a IH]; intros b c n Hn.
  - rewrite firstn_nil. reflexivity.
  - destruct b as [|y b]; [destruct n; reflexivity|].
    destruct n as [|n]; simpl in Hn; [lia|].
    destruct c as [|z c]; [reflexivity|].
    simpl. rewrite IH by lia. reflexivity.
Qed.

Section Generic.

Context {F : Type} `{Arith F}.

(** X3: cell-anchor synthesis is size-major all the way: the anchors of a
    list of sizes followed by another are the anchors of the first followed
    by the anchors of the second, and the first failure met in that order is
    the failure of the whole. *)
Theorem generate_cell_anchors_app (ss1 ss2 ars : list F) :
  generate_cell_anchors (ss1 ++ ss2) ars
  = (b1 <- generate_cell_anchors ss1 ars ;;
     b2 <- generate_cell_anchors ss2 ars ;;
     Ok (b1 ++ b2)).
Proof.
  unfold generate_cell_anchors. rewrite mapM_app.
  destruct (mapM _ ss1) as [r1|e]; simpl; [|reflexivity].
  destruct (mapM _ ss2) as [r2|e]; simpl; [|reflexivity].
  rewrite concat_app. reflexivity.
Qed.

Lemma broadcast_of_full (xss : list (list F)) (n : nat) (name : string) :
  1 <= n -> length xss = n -> _broadcast_params (Nested xss) n name = Ok xss.
Proof.
  intros Hn Hlen. unfold _broadcast_params. simpl.
  destruct xss as [|xs [|ys xss]]; simpl in *; [lia| |].
  - subst n. rewrite list_times_once. reflexivity.
  - destruct n as [|[|n]]; try lia. injection Hlen as Hlen.
    simpl. rewrite (proj2 (Nat.eqb_eq _ _) Hlen). reflexivity.
Qed.

(** X4: broadcasting is idempotent: for at least one level, what
    [_broadcast_params] returns is a list of nested lists that
    [_broadcast_params] returns unchanged. *)
Theorem broadcast_idempotent (p : params F) (n : nat) (name name' : string)
    (r : list (list F)) :
  1 <= n -> _broadcast_params p n name = Ok r ->
  _broadcast_params (Nested r) n name' = Ok r.
Proof.
  intros Hn Hr. apply broadcast_of_full; [exact Hn|].
  exact (broadcast_length _ _ _ Hr).
Qed.

(** X5: construction reads the strides for their number only: with two
    lists of strides of one length it fails alike, or returns generators
    that differ in the stored strides only. *)
Theorem init_reads_stride_count (sizes0 aspect_ratios0 : params F) (strides1 strides2 : list Z)
    (offset0 : F) :
  length strides1 = length strides2 ->
  __init__ sizes0 aspect_ratios0 strides1 offset0 =
  match __init__ sizes0 aspect_ratios0 strides2 offset0 with
  | Ok g => Ok (mkAnchorGenerator strides1 (num_features g) (sizes g)
                  (aspect_ratios g) (cell_anchors g) (offset g))
  | Raise e => Raise e
  end.
Proof.
  intros Hlen. unfold __init__. rewrite Hlen.
  destruct (_broadcast_params sizes0 _ _) as [ss|e]; simpl; [|reflexivity].
  destruct (_broadcast_params aspect_ratios0 _ _) as [ars|e]; simpl; [|reflexivity].
  destruct (_calculate_anchors ss ars) as [cas|e]; simpl; reflexivity.
Qed.

(** X6: [grid_anchors] never looks at a grid size beyond the number of
    levels: dropping the sizes after the first [len(strides)] changes
    neither its result nor its failure, whatever those sizes are. *)
Theorem grid_anchors_ignores_extra_sizes (self : AnchorGenerator F)
    (grid_sizes : list (list Z)) :
  grid_anchors self (firstn (length (strides self)) grid_sizes)
  = grid_anchors self grid_sizes.
Proof.
  unfold grid_anchors. rewrite zip3_firstn by lia. reflexivity.
Qed.

(** X7: a feature map with fewer than two dimensions makes [forward] fail
    with ValueError, when the generator has a level for it: its shape cannot
    be unpacked into a height and a width. *)
Theorem forward_needs_two_dimensions (self : AnchorGenerator F) (shape : list Z)
    (features : list (list Z)) :
  strides self <> [] -> cell_anchors self <> [] -> length shape < 2 ->
  forward self (shape :: features) = Raise ValueError.
Proof.
  intros Hs Hc Hshape. unfold forward, grid_anchors.
  destruct (strides self) as [|stride strides0]; [congruence|].
  destruct (cell_anchors self) as [|base cas]; [congruence|].
  cbn [map zip3 mapM]. unfold grid_anchors_level, _compute_grid_offsets.
  destruct shape as [|d [|d' shape]]; simpl in Hshape; try lia; reflexivity.
Qed.

End Generic.

Lemma broadcast_idempotent_witness :
  _broadcast_params (Nested [[32%R]; [32%R]; [32%R]]) 3 "aspect_ratios"
  = Ok [[32%R]; [32%R]; [32%R]].
Proof.
  apply (@broadcast_idempotent R (Flat [32%R]) 3 "sizes" "aspect_ratios").
  - repeat constructor.
  - reflexivity.
Defined.

Lemma init_reads_stride_count_witness :
  __init__ (Flat [32]%float) (Flat [1]%float) [8]%Z 0%float
  = match __init__ (Flat [32]%float) (Flat [1]%float) [64]%Z 0%float with
    | Ok g => Ok (mkAnchorGenerator [8]%Z (num_features g) (sizes g)
                    (aspect_ratios g) (cell_anchors g) (offset g))
    | Raise e => Raise e
    end.
Proof.
  apply (@init_reads_stride_count float _ (Flat [32]%float) (Flat [1]%float) [8]%Z [64]%Z).
  reflexivity.
Defined.

Lemma forward_needs_two_dimensions_witness :
  forward two_level_generator [[5]; [1; 256; 2; 3]]%Z = Raise ValueError.
Proof.
  apply forward_needs_two_dimensions.
  - discriminate.
  - discriminate.
  - repeat constructor.
Defined.

(** ** Cell anchors over the reals, for every input *)

Open Scope R_scope.

Lemma mapM_ext {A B : Type} (f g : A -> result B) (l : list A) :
  (forall a, In a l -> f a = g a) -> mapM f l = mapM g l.
Proof.
  induction l as [|a l IH]; simpl; intros Hfg; [reflexivity|].
  rewrite (Hfg a) by (left; reflexivity).
  rewrite IH by (intros a' Ha'; apply Hfg; right; exact Ha'). reflexivity.
Qed.

Lemma mapM_map {A B C : Type} (f : B -> result C) (g : A -> B) (l : list A) :
  mapM f (map g l) = mapM (fun a => f (g a)) l.
Proof.
  induction l as [|a l IH]; simpl; [reflexivity | rewrite IH; reflexivity].
Qed.




(** X8: a size and its negative give the same cell anchors: negating every
    size changes neither the result of synthesis nor its failure. *)
Theorem generate_cell_anchors_sign (ss ars : list R) :
  generate_cell_anchors (map Ropp ss) ars = generate_cell_anchors ss ars.
Proof.
  unfold generate_cell_anchors. rewrite mapM_map.
  rewrite (mapM_ext _ (fun size => mapM (fun ar => cell_anchor (pow2 size) ar) ars));
    [reflexivity|].
  intros s _. apply mapM_ext. intros a _.
  replace (pow2 (- s)) with (pow2 s); [reflexivity|].
  unfold pow2. simpl. ring.
Qed.






(** ** Construction over the reals *)



(** ** Grid offsets over the reals, for every stride and offset *)












(** ** The grid of a level *)








(** ** Every anchor of the pyramid *)




(** ** The default configuration *)

Lemma default_generator_built :
  exists cas,
    __init__ ANCHOR_SIZES ANCHOR_ASPECT_RATIOS ANCHOR_STRIDES ANCHOR_OFFSET
    = Ok (mkAnchorGenerator ANCHOR_STRIDES 5
            (map (fun x => [x; x * Rpower 2 (1 / 3); x * Rpower 2 (2 / 3)])
                 [32; 64; 128; 256; 512])
            (repeat [1 / 2; 1; 2] 5) cas ANCHOR_OFFSET) /\
    map (fun ca : list (box R) => length ca) cas = [9; 9; 9; 9; 9]%nat.
Proof.
  unfold __init__, ANCHOR_SIZES, ANCHOR_ASPECT_RATIOS, ANCHOR_STRIDES.
  cbn [_broadcast_params is_list_or_tuple len length negb Nat.eqb map
       list_repeat repeat bind _calculate_anchors combine mapM].
  rewrite !generate_cell_anchors_closed_form
    by (intros s a _ Ha; apply positive_pair_ok; simpl in Ha;
        destruct Ha as [<-|[<-|[<-|[]]]]; lra).
  cbn [bind]. eexists. split; reflexivity.
Qed.

(** X17: the default configuration of [config.py] builds a generator of five
    levels with nine anchors at every location, and on five feature maps
    [forward] returns one tensor of [9 * (H_1 * W_1 + ... + H_5 * W_5)]
    anchors. *)
Theorem default_generator :
  exists g,
    __init__ ANCHOR_SIZES ANCHOR_ASPECT_RATIOS ANCHOR_STRIDES ANCHOR_OFFSET = Ok g /\
    num_anchors g = [9; 9; 9; 9; 9]%nat /\
    forall shapes : list (nat * nat), length shapes = 5%nat ->
      exists out,
        forward g (map shape_size shapes) = Ok [out] /\
        length out = (9 * list_sum (map (fun hw => fst hw * snd hw) shapes))%nat.
Proof.
  destruct default_generator_built as (cas & Hinit & Hnum).
  eexists. split; [exact Hinit|]. split; [exact Hnum|].
  intros shapes Hlen.
  assert (Ho : 0 <= ANCHOR_OFFSET < 1) by (unfold ANCHOR_OFFSET; lra).
  assert (Hst : Forall (fun s => (0 < s)%Z) ANCHOR_STRIDES) by (repeat constructor).
  assert (Hfit : Forall (shape_fits ANCHOR_OFFSET) shapes).
  { apply Forall_forall. intros hw _. left. reflexivity. }
  assert (Hfeat : map last2 (map shape_size shapes) = map shape_size shapes).
  { rewrite map_map. apply map_ext. intros [h w]. reflexivity. }
  destruct (@generate_R _ _ _ _ _ shapes (map shape_size shapes) Hinit Ho Hst Hfit Hfeat)
    as (per_level & _ & Hfwd & Hn & Hidx).
  rewrite Hlen in Hn. change (Nat.min 5 (length ANCHOR_STRIDES)) with 5%nat in Hn.
  unfold num_cell_anchors, num_anchors in Hidx. cbn [cell_anchors] in Hidx. rewrite Hnum in Hidx.
  destruct shapes as [|[h1 w1] [|[h2 w2] [|[h3 w3] [|[h4 w4] [|[h5 w5] [|? ?]]]]]];
    try discriminate.
  destruct per_level as [|o1 [|o2 [|o3 [|o4 [|o5 [|? ?]]]]]]; try discriminate.
  exists (concat [o1; o2; o3; o4; o5]). split; [rewrite Hfwd; reflexivity|].
  destruct (Hidx 0%nat o1 eq_refl) as (? & ? & ? & [= <- <-] & [= <-] & L1).
  destruct (Hidx 1%nat o2 eq_refl) as (? & ? & ? & [= <- <-] & [= <-] & L2).
  destruct (Hidx 2%nat o3 eq_refl) as (? & ? & ? & [= <- <-] & [= <-] & L3).
  destruct (Hidx 3%nat o4 eq_refl) as (? & ? & ? & [= <- <-] & [= <-] & L4).
  destruct (Hidx 4%nat o5 eq_refl) as (? & ? & ? & [= <- <-] & [= <-] & L5).
  cbn [concat map list_sum fst snd]. rewrite !length_app, L1, L2, L3, L4, L5. simpl. lia.
Qed.

(** ** What broadcasting returns, and when [forward] fails *)

Close Scope R_scope.

Section Postconditions.

Context {F : Type} `{Arith F}.

(** X18: when broadcasting returns, it returns exactly one list per level,
    and each of them is the caller's flat list, or one of the caller's
    nested lists: no level is left without parameters and none is made up. *)
Theorem broadcast_returns_callers_lists (p : params F) (n : nat) (name : string)
    (r : list (list F)) :
  _broadcast_params p n name = Ok r ->
  length r = n /\
  Forall (fun level =>
            match p with
            | Flat xs => level = xs
            | Nested xss => In level xss
            | NotSeq _ => False
            end) r.
Proof.
  intros Hr. split; [exact (broadcast_length _ _ _ Hr)|].
  unfold _broadcast_params in Hr.
  destruct p as [xs|xss|s]; simpl in Hr; [| |discriminate].
  - destruct (length xs =? 0); [discriminate|]. injection Hr as <-.
    apply Forall_forall. intros level Hin. exact (repeat_spec _ _ _ Hin).
  - destruct (length xss =? 0); [discriminate|].
    destruct (length xss =? 1) eqn:E1.
    + injection Hr as <-. apply Nat.eqb_eq in E1.
      destruct xss as [|xs [|? ?]]; try discriminate.
      rewrite list_times_singleton. apply Forall_forall. intros level Hin.
      left. symmetry. exact (repeat_spec _ _ _ Hin).
    + destruct (length xss =? n); simpl in Hr; [|discriminate].
      injection Hr as <-. apply Forall_forall. intros level Hin. exact Hin.
Qed.

Lemma zip3_nil_iff {A B C : Type} (a : list A) (b : list B) (c : list C) :
  zip3 a b c = [] <-> a = [] \/ b = [] \/ c = [].
Proof.
  destruct a as [|x a], b as [|y b], c as [|z c]; simpl;
    split; intros Hz; try discriminate; try tauto;
    destruct Hz as [Hz | [Hz | Hz]]; discriminate.
Qed.

(** X19: [forward] fails exactly when [grid_anchors] fails, or when there is
    nothing to concatenate: no feature map, or a generator without levels. *)
Theorem forward_fails_exactly (self : AnchorGenerator F) (features : list (list Z)) :
  raises (forward self features) <->
  raises (grid_anchors self (map last2 features)) \/
  features = [] \/ strides self = [] \/ cell_anchors self = [].
Proof.
  unfold forward, grid_anchors.
  set (body := fun '(size, stride, base_anchors) =>
                 grid_anchors_level (offset self) size stride base_anchors).
  destruct (zip3 (map last2 features) (strides self) (cell_anchors self))
    as [|[[size stride] base] rest] eqn:Hzip.
  - apply zip3_nil_iff in Hzip. simpl. split; [|intros _; eexists; reflexivity].
    intros _. right. destruct Hzip as [Hf | [Hs | Hc]]; [|tauto|tauto].
    left. destruct features; [reflexivity | discriminate].
  - assert (Hne : ~ (features = [] \/ strides self = [] \/ cell_anchors self = [])).
    { intros Hemp. assert (Hz : zip3 (map last2 features) (strides self) (cell_anchors self) = []).
      { apply zip3_nil_iff. destruct Hemp as [-> | [Hs | Hc]]; tauto. }
      rewrite Hzip in Hz. discriminate. }
    cbn [mapM]. destruct (body (size, stride, base)) as [out|e]; cbn [bind].
    + destruct (mapM body rest) as [outs|e]; cbn [bind torch_cat].
      * split; [intros [e He]; discriminate|].
        intros [[e He] | Hemp]; [discriminate | contradiction].
      * split; [intros _; left; eexists; reflexivity | intros _; eexists; reflexivity].
    + split; [intros _; left; eexists; reflexivity | intros _; eexists; reflexivity].
Qed.

End Postconditions.

Lemma broadcast_returns_callers_lists_witness :
  length [[1%R]; [2%R]; [3%R]] = 3 /\
  Forall (fun level => In level [[1%R]; [2%R]; [3%R]]) [[1%R]; [2%R]; [3%R]].
Proof.
  apply (@broadcast_returns_callers_lists R (Nested [[1%R]; [2%R]; [3%R]]) 3 "sizes").
  reflexivity.
Defined.
